(** * LED multiplexer of the ugurhoca firmware: ledController.cpp and sistem.h

    A shallow embedding of the two translation units of the repository
    ([mix_last/sistem.h], [mix_last/ledController.cpp]) together with the
    parts of the acquisition design that the sources only declare.

    Layout of the development:
    - the data of [sistem.h] (enumeration, [prc], [sistem]);
    - the Arduino digital-output primitives the controller calls;
    - [ledController]: [begin], [update], [adsBaglanmadiLedBildir];
    - the channel sequencer and orchestrator, which the repository does not
      contain and which are therefore modelled from the design document;
    - the theorems. *)

From Stdlib Require Import ZArith Lia.
From stdpp Require Import base option list gmap strings.

Open Scope Z_scope.

(** ** sistem.h *)

(** [enum ChannelState]: the enumerators in declaration order. *)
Inductive ChannelState : Type :=
  | CHANNEL_IDLE
  | LED_ON
  | DELAY_COUNTING
  | ADC_READING_PHASE
  | CYCLE_COMPLETE.

#[global] Instance ChannelState_eq_dec : EqDecision ChannelState.
Proof. solve_decision. Defined.


(** Reading an object of the enumeration type back from its stored value;
    a stored value that names no enumerator has no counterpart here. *)
Definition ChannelState_of_value (z : Z) : option ChannelState :=
  if decide (z = 0) then Some CHANNEL_IDLE
  else if decide (z = 1) then Some LED_ON
  else if decide (z = 2) then Some DELAY_COUNTING
  else if decide (z = 3) then Some ADC_READING_PHASE
  else if decide (z = 4) then Some CYCLE_COMPLETE
  else None.

(** [struct prc]. *)
Record prc : Type := Build_prc {
  led : bool;
  delay : bool;
  adc_read : bool
}.

Section Sistem.

(** [ads1115] comes from [ads.h], which is not among the sources: the
    handle type is a parameter of the development. *)
Context {ads1115 : Type}.

(** [struct sistem].  The two arrays have four elements each. *)
Record sistem : Type := Build_sistem {
  SisteminAdi : string;
  versiyon : string;
  myAds : ads1115;
  channelState : list ChannelState;
  process : list prc;
  process_itr : Z;
  process_pos : Z;
  state : bool
}.

(** The bytes a [sistem] object occupies before its constructor runs, as
    far as the members without an initialiser are concerned: the
    enumeration slots hold integers, the others booleans. *)
Record sistem_storage : Type := Build_sistem_storage {
  raw_channelState : list Z;
  raw_process : list prc;
  raw_state : bool
}.

(** The implicitly defined default constructor of [sistem]: the two
    [String] members and [myAds] are default-constructed, [process_itr]
    and [process_pos] take their default member initialiser [0], and
    [channelState], [process] and [state], which have none, keep what the
    storage held. *)
Definition sistem_ctor (ads : ads1115) (mem : sistem_storage) : option sistem :=
  cs ← mapM ChannelState_of_value (raw_channelState mem);
  Some {| SisteminAdi := EmptyString;
          versiyon := EmptyString;
          myAds := ads;
          channelState := cs;
          process := raw_process mem;
          process_itr := 0;
          process_pos := 0;
          state := raw_state mem |}.

(** [extern sistem mysistem;] names an object of static storage duration:
    its storage is zero-initialised before any constructor runs. *)
Definition static_storage : sistem_storage :=
  {| raw_channelState := replicate 4 0;
     raw_process := replicate 4 (Build_prc false false false);
     raw_state := false |}.

Definition mysistem_startup (ads : ads1115) : option sistem :=
  sistem_ctor ads static_storage.

End Sistem.

Arguments sistem : clear implicits.

(** ** Digital output *)

Inductive PinMode : Type := INPUT | OUTPUT | INPUT_PULLUP.
Inductive Level : Type := LOW | HIGH.

#[global] Instance PinMode_eq_dec : EqDecision PinMode.
Proof. solve_decision. Defined.
#[global] Instance Level_eq_dec : EqDecision Level.
Proof. solve_decision. Defined.

(** One call of a pin primitive, as seen from outside the controller. *)
Inductive io_event : Type :=
  | PinModeCall (pin : Z) (mode : PinMode)
  | DigitalWriteCall (pin : Z) (v : Level).

#[global] Instance io_event_eq_dec : EqDecision io_event.
Proof. solve_decision. Defined.

(** Modelled from the spec: the digital output capability
    ([configureAsOutput(pin)], [writeLevel(pin, level)]), that is the Arduino
    core's [pinMode] and [digitalWrite], which the repository calls and does
    not define.  The driver has "no state of its own beyond current line
    values": a direction and a level per pin number.  A pin that was never
    configured or written has no entry.  [io_log] lists the calls made,
    latest first. *)
Record Board : Type := Build_Board {
  pin_mode : gmap Z PinMode;
  pin_level : gmap Z Level;
  io_log : list io_event
}.

Definition board_pinMode (pin : Z) (mode : PinMode) (b : Board) : Board :=
  {| pin_mode := <[pin := mode]> (pin_mode b);
     pin_level := pin_level b;
     io_log := PinModeCall pin mode :: io_log b |}.

Definition board_digitalWrite (pin : Z) (v : Level) (b : Board) : Board :=
  {| pin_mode := pin_mode b;
     pin_level := <[pin := v]> (pin_level b);
     io_log := DigitalWriteCall pin v :: io_log b |}.

(** The calls of [digitalWrite] in a log, latest first. *)
Definition writes_of (log : list io_event) : list (Z * Level) :=
  omap (fun e => match e with
                 | DigitalWriteCall p v => Some (p, v)
                 | PinModeCall _ _ => None
                 end) log.

(** ** ledController *)

(** Modelled from the spec: [ledClass.h] is not among the sources.  The one
    member [ledController.cpp] touches is [counter], the count of
    "consecutive failed ADC interactions"; it is an integer compared with
    [4] and assigned [0]. *)
Record ledClass : Type := Build_ledClass {
  counter : Z
}.

(** [l.counter = c] *)
Definition set_counter (c : Z) (l : ledClass) : ledClass :=
  {| counter := c |}.

(** [a[i]] for a C array held as a list and an [int] subscript; a subscript
    outside the array has no defined result. *)
Definition subscript {A : Type} (a : list A) (i : Z) : option A :=
  if decide (0 <= i) then a !! Z.to_nat i else None.

(** [const int ledController::pinNos[5] = {4, 5, 6, 7, 22};] *)
Definition pinNos : list Z := [4; 5; 6; 7; 22].

Section Controller.

Context {ads1115 : Type}.

(** Everything [ledController.cpp] can see: the static members
    [toggleFlag] and [instance], the member array [leds] of the one
    controller object, the externs [mysistem] and [dongu_led], and the
    board behind the pin primitives.  [instance] is [false] for
    [nullptr] and [true] once it points at the controller. *)
Record machine : Type := Build_machine {
  toggleFlag : list bool;
  instance : bool;
  leds : list ledClass;
  mysistem : sistem ads1115;
  dongu_led : list bool;
  board : Board
}.

Definition with_board (b : Board) (m : machine) : machine :=
  {| toggleFlag := toggleFlag m; instance := instance m; leds := leds m;
     mysistem := mysistem m; dongu_led := dongu_led m; board := b |}.

Definition with_leds (l : list ledClass) (m : machine) : machine :=
  {| toggleFlag := toggleFlag m; instance := instance m; leds := l;
     mysistem := mysistem m; dongu_led := dongu_led m; board := board m |}.

Definition with_toggleFlag (f : list bool) (m : machine) : machine :=
  {| toggleFlag := f; instance := instance m; leds := leds m;
     mysistem := mysistem m; dongu_led := dongu_led m; board := board m |}.

Definition with_mysistem (s : sistem ads1115) (m : machine) : machine :=
  {| toggleFlag := toggleFlag m; instance := instance m; leds := leds m;
     mysistem := s; dongu_led := dongu_led m; board := board m |}.


Definition pinMode (pin : Z) (mode : PinMode) (m : machine) : machine :=
  with_board (board_pinMode pin mode (board m)) m.

Definition digitalWrite (pin : Z) (v : Level) (m : machine) : machine :=
  with_board (board_digitalWrite pin v (board m)) m.

(** [volatile bool ledController::toggleFlag[5] = {false, ...};] *)
Definition toggleFlag_init : list bool := replicate 5 false.


(** [for (int i = start; i < bound; i++) body], unrolled at most [fuel]
    times; [None] when the body fails or the fuel does not suffice. *)
Fixpoint for_loop (fuel : nat) (i bound : Z)
    (body : Z → machine → option machine) (m : machine) : option machine :=
  if decide (i < bound) then
    match fuel with
    | O => None
    | S fuel' => m' ← body i m; for_loop fuel' (i + 1) bound body m'
    end
  else Some m.

(** The body of the loop of [begin]. *)
Definition begin_body (i : Z) (m : machine) : option machine :=
  p ← subscript pinNos i;
  Some (digitalWrite p LOW (pinMode p OUTPUT m)).

(** [void ledController::begin()] *)
Definition begin (m : machine) : option machine :=
  for_loop 5 0 5 begin_body m.

(** [void ledController::update(int i)] *)
Definition update (i : Z) (m : machine) : option machine :=
  flag ← subscript (toggleFlag m) i;
  p ← subscript pinNos i;
  if (flag : bool) then Some (digitalWrite p HIGH m)
  else Some (digitalWrite p LOW m).

(** [void ledController::adsBaglanmadiLedBildir()] *)
Definition adsBaglanmadiLedBildir (m : machine) : option machine :=
  l ← subscript (leds m) 4;
  if decide (counter l = 4) then
    let m1 := digitalWrite 22 LOW m in
    Some (with_leds (<[4%nat := set_counter 0 l]> (leds m1)) m1)
  else Some m.

(** [update] called [n] times in a row with the same index. *)
Fixpoint update_repeat (n : nat) (i : Z) (m : machine) : option machine :=
  match n with
  | O => Some m
  | S n' => m' ← update i m; update_repeat n' i m'
  end.

(** The value of [leds[4].counter], if the slot exists. *)
Definition monitored_counter (m : machine) : option Z :=
  counter <$> subscript (leds m) 4.

(** What can happen to the monitored counter between and around the
    health checks: the rest of the firmware stores a value in
    [leds[4].counter], or [adsBaglanmadiLedBildir] is called. *)
Inductive monitor_event : Type :=
  | StoreCounter (c : Z)
  | CallMonitor.

(** [leds[4].counter = c] *)
Definition store_counter (c : Z) (m : machine) : machine :=
  with_leds (alter (set_counter c) 4%nat (leds m)) m.

Fixpoint run_monitor (evs : list monitor_event) (m : machine)
    : option machine :=
  match evs with
  | [] => Some m
  | StoreCounter c :: evs' => run_monitor evs' (store_counter c m)
  | CallMonitor :: evs' =>
      m' ← adsBaglanmadiLedBildir m; run_monitor evs' m'
  end.

(** Along [evs], started with the counter at [c], no call of the monitor
    finds the counter at the threshold. *)
Fixpoint calls_off_threshold (evs : list monitor_event) (c : Z) : Prop :=
  match evs with
  | [] => True
  | StoreCounter c' :: evs' => calls_off_threshold evs' c'
  | CallMonitor :: evs' => c ≠ 4 ∧ calls_off_threshold evs' c
  end.

(** The number of calls of the monitor along [evs], started with the
    counter at [c], that find the counter at 4; such a call leaves it at
    0. *)
Fixpoint triggers (evs : list monitor_event) (c : Z) : nat :=
  match evs with
  | [] => O
  | StoreCounter c' :: evs' => triggers evs' c'
  | CallMonitor :: evs' =>
      if decide (c = 4) then S (triggers evs' 0) else triggers evs' c
  end.

(** The pin calls of one run of [begin], latest first: for each entry of
    [pinNos] in order, [pinMode] and then [digitalWrite]. *)
Definition begin_calls : list io_event :=
  reverse (pinNos ≫= fun p => [PinModeCall p OUTPUT; DigitalWriteCall p LOW]).

(** The sizes the declarations give the arrays; [leds] has at least the
    five slots [leds[4]] presupposes. *)
Definition well_sized (m : machine) : Prop :=
  length (toggleFlag m) = 5%nat ∧
  (5 <= length (leds m))%nat ∧
  length (channelState (mysistem m)) = 4%nat ∧
  length (process (mysistem m)) = 4%nat ∧
  length (dongu_led m) = 4%nat.

End Controller.

Arguments machine : clear implicits.

(** ** Channel sequencer and acquisition orchestrator *)

(** Modelled from the spec: the configuration surface, "loaded once at
    startup": [time_open] (LED-on duration), the settle delay, the number of
    ADC samples of a reading phase, and the one policy the design leaves to
    the implementer, whether the channel selected after a completed cycle
    enters [LED_ON] at once ([skip_idle = true]) or passes through
    [CHANNEL_IDLE]. *)
Record Config : Type := Build_Config {
  time_open : Z;
  settle_delay : Z;
  sample_count : nat;
  skip_idle : bool
}.

(** Modelled from the spec: the attributes of a Channel that [sistem] has
    no member for: the time stamp of the start of the current phase, the
    [sampleAccumulator], the number of sample attempts of the current
    reading phase and the channel's [failureCounter]. *)
Record ChannelData : Type := Build_ChannelData {
  phaseStart : Z;
  sampleAccumulator : list Z;
  attempts : nat;
  failureCounter : Z
}.

Definition ChannelData_init : ChannelData :=
  {| phaseStart := 0; sampleAccumulator := []; attempts := 0%nat;
     failureCounter := 0 |}.

(** Modelled from the spec: the process descriptor as "a redundant/derived
    view" of the channel state, in which "exactly the phases up to and
    including the current state are marked complete". *)
Definition prc_of (c : ChannelState) : prc :=
  match c with
  | CHANNEL_IDLE => Build_prc false false false
  | LED_ON => Build_prc true false false
  | DELAY_COUNTING => Build_prc true true false
  | ADC_READING_PHASE => Build_prc true true true
  | CYCLE_COMPLETE => Build_prc true true true
  end.

(** Modelled from the spec: one sample attempt of the reading phase.  "each
    sample attempt that returns no/invalid response increments
    [failureCounter[i]]; a successful sample resets it and appends to
    [sampleAccumulator]". *)
Definition record_sample (sample : Z * bool) (d : ChannelData) : ChannelData :=
  if sample.2 then
    {| phaseStart := phaseStart d;
       sampleAccumulator := sampleAccumulator d ++ [sample.1];
       attempts := S (attempts d);
       failureCounter := 0 |}
  else
    {| phaseStart := phaseStart d;
       sampleAccumulator := sampleAccumulator d;
       attempts := S (attempts d);
       failureCounter := failureCounter d + 1 |}.

Definition start_phase (now : Z) (d : ChannelData) : ChannelData :=
  {| phaseStart := now; sampleAccumulator := sampleAccumulator d;
     attempts := 0%nat; failureCounter := failureCounter d |}.

Definition clear_accumulator (d : ChannelData) : ChannelData :=
  {| phaseStart := phaseStart d; sampleAccumulator := [];
     attempts := attempts d; failureCounter := failureCounter d |}.

Section Sequencer.

Context {ads1115 : Type}.
Variable cfg : Config.

(** The firmware state together with the sequencer's own data: one
    [ChannelData] per channel and the accumulators handed to the reporting
    collaborator so far (channel index and samples, latest first). *)
Record plant : Type := Build_plant {
  fw : machine ads1115;
  channels : list ChannelData;
  handed_off : list (Z * list Z)
}.

Definition with_fw (m : machine ads1115) (s : plant) : plant :=
  {| fw := m; channels := channels s; handed_off := handed_off s |}.

Definition with_channels (c : list ChannelData) (s : plant) : plant :=
  {| fw := fw s; channels := c; handed_off := handed_off s |}.

(** [channelState[i] = c], the process descriptor following. *)
Definition set_channelState (i : nat) (c : ChannelState)
    (s : sistem ads1115) : sistem ads1115 :=
  {| SisteminAdi := SisteminAdi s; versiyon := versiyon s; myAds := myAds s;
     channelState := <[i := c]> (channelState s);
     process := <[i := prc_of c]> (process s);
     process_itr := process_itr s; process_pos := process_pos s;
     state := state s |}.

Definition set_cursor (itr pos : Z) (s : sistem ads1115) : sistem ads1115 :=
  {| SisteminAdi := SisteminAdi s; versiyon := versiyon s; myAds := myAds s;
     channelState := channelState s; process := process s;
     process_itr := itr; process_pos := pos; state := state s |}.

(** Channel [i] moves to state [c] with its LED flag set to [f]. *)
Definition move_channel (i : nat) (c : ChannelState) (f : bool)
    (m : machine ads1115) : machine ads1115 :=
  with_toggleFlag (<[i := f]> (toggleFlag m))
    (with_mysistem (set_channelState i c (mysistem m)) m).

(** Modelled from the spec: [CHANNEL_IDLE → LED_ON], "Side effect: set
    [ledFlag[i] = true]; record phase-start timestamp". *)
Definition enter_LED_ON (now : Z) (i : nat) (s : plant) : plant :=
  {| fw := move_channel i LED_ON true (fw s);
     channels := alter (start_phase now) i (channels s);
     handed_off := handed_off s |}.

(** Modelled from the spec: the orchestrator's acknowledgement of a
    completed cycle of channel [i]: it "reads out [sampleAccumulator],
    clears it, increments [process_itr]", deselects the channel
    ([CYCLE_COMPLETE → CHANNEL_IDLE]) and "advances
    [process_pos = (process_pos + 1) mod 4]". *)
Definition acknowledge (i : nat) (d : ChannelData) (s : plant) : plant :=
  let m := fw s in
  let sys := set_channelState i CHANNEL_IDLE (mysistem m) in
  let sys' := set_cursor (process_itr sys + 1)
                ((process_pos sys + 1) `mod` 4) sys in
  {| fw := with_mysistem sys' m;
     channels := <[i := clear_accumulator d]> (channels s);
     handed_off := (Z.of_nat i, sampleAccumulator d) :: handed_off s |}.

(** Modelled from the spec: the orchestrator's non-blocking [tick], which
    the repository does not contain.  It "advances exactly one channel's
    state machine per call (the one at [process_pos])" along the five
    transitions of the channel sequencer; [now] is the current time stamp
    and [sample] the result [(value, ok)] the ADC shim returns if this
    tick reads a sample. *)
Definition tick (now : Z) (sample : Z * bool) (s : plant) : option plant :=
  let pos := process_pos (mysistem (fw s)) in
  let i := Z.to_nat pos in
  c ← subscript (channelState (mysistem (fw s))) pos;
  d ← subscript (channels s) pos;
  match c with
  | CHANNEL_IDLE => Some (enter_LED_ON now i s)
  | LED_ON =>
      if decide (time_open cfg <= now - phaseStart d) then
        Some {| fw := move_channel i DELAY_COUNTING false (fw s);
                channels := <[i := start_phase now d]> (channels s);
                handed_off := handed_off s |}
      else Some s
  | DELAY_COUNTING =>
      if decide (settle_delay cfg <= now - phaseStart d) then
        Some {| fw := with_mysistem
                        (set_channelState i ADC_READING_PHASE
                           (mysistem (fw s))) (fw s);
                channels := <[i := start_phase now d]> (channels s);
                handed_off := handed_off s |}
      else Some s
  | ADC_READING_PHASE =>
      let d' := record_sample sample d in
      let s' := with_channels (<[i := d']> (channels s)) s in
      if decide (sample_count cfg <= attempts d')%nat then
        Some (with_fw (with_mysistem
                         (set_channelState i CYCLE_COMPLETE
                            (mysistem (fw s'))) (fw s')) s')
      else Some s'
  | CYCLE_COMPLETE =>
      let s' := acknowledge i d s in
      if skip_idle cfg then
        Some (enter_LED_ON now
                (Z.to_nat (process_pos (mysistem (fw s')))) s')
      else Some s'
  end.

(** Modelled from the spec: the reset operation, which "must return every
    Channel to [CHANNEL_IDLE] and clear all flags and counters". *)
Definition reset (s : plant) : plant :=
  let m := fw s in
  let sys := mysistem m in
  let sys' :=
    {| SisteminAdi := SisteminAdi sys; versiyon := versiyon sys;
       myAds := myAds sys;
       channelState := replicate 4 CHANNEL_IDLE;
       process := replicate 4 (prc_of CHANNEL_IDLE);
       process_itr := process_itr sys; process_pos := process_pos sys;
       state := state sys |} in
  {| fw := with_leds (set_counter 0 <$> leds m)
             (with_toggleFlag (replicate 5 false) (with_mysistem sys' m));
     channels := replicate 4 ChannelData_init;
     handed_off := handed_off s |}.

(** The operations of the system: the orchestrator's tick from the main
    loop, the reconciliation of one LED from the timer interrupt, the
    controller's [begin], the connection-health check, and the reset. *)
Inductive operation : Type :=
  | OpTick (now : Z) (sample : Z * bool)
  | OpUpdate (i : Z)
  | OpBegin
  | OpAdsBaglanmadiLedBildir
  | OpReset.

Definition step (o : operation) (s : plant) : option plant :=
  match o with
  | OpTick now sample => tick now sample s
  | OpUpdate i => m ← update i (fw s); Some (with_fw m s)
  | OpBegin => m ← begin (fw s); Some (with_fw m s)
  | OpAdsBaglanmadiLedBildir =>
      m ← adsBaglanmadiLedBildir (fw s); Some (with_fw m s)
  | OpReset => Some (reset s)
  end.

(** The state the system starts from: the static initialisers of
    [ledController.cpp] and the start-up value of [mysistem]; the
    controller's [leds], the other externs and the board are not
    constrained beyond their sizes. *)
Definition startup (s : plant) : Prop :=
  toggleFlag (fw s) = toggleFlag_init ∧
  mysistem_startup (myAds (mysistem (fw s))) = Some (mysistem (fw s)) ∧
  (5 <= length (leds (fw s)))%nat ∧
  length (dongu_led (fw s)) = 4%nat ∧
  channels s = replicate 4 ChannelData_init.

Inductive reachable : plant → Prop :=
  | reachable_startup s : startup s → reachable s
  | reachable_step s o s' : reachable s → step o s = Some s' → reachable s'.

(** At most one of the channels 0..3 is in [ADC_READING_PHASE]. *)
Definition adc_exclusive (s : plant) : Prop :=
  ∀ i j : Z, 0 <= i <= 3 → 0 <= j <= 3 →
    subscript (channelState (mysistem (fw s))) i = Some ADC_READING_PHASE →
    subscript (channelState (mysistem (fw s))) j = Some ADC_READING_PHASE →
    i = j.

(** The LED flag of a channel is set exactly when the channel is in
    [LED_ON]. *)
Definition flag_tracks_LED_ON (s : plant) : Prop :=
  ∀ i : Z, 0 <= i <= 3 →
    ∃ c f, subscript (channelState (mysistem (fw s))) i = Some c ∧
           subscript (toggleFlag (fw s)) i = Some f ∧
           (f = true ↔ c = LED_ON).

(** What the sequencer maintains about the flags, the channel states
    and the cursor: the array sizes, a cursor inside the array, every
    channel other than the one at the cursor idle, and each channel's flag
    set exactly in [LED_ON]. *)
Definition cursor_inv (tf : list bool) (cs : list ChannelState) (pos : Z)
    : Prop :=
  length tf = 5%nat ∧
  length cs = 4%nat ∧
  0 <= pos < 4 ∧
  (∀ (i : nat) c, cs !! i = Some c → Z.of_nat i ≠ pos → c = CHANNEL_IDLE) ∧
  (∀ (i : nat) c f, cs !! i = Some c → tf !! i = Some f →
     (f = true ↔ c = LED_ON)).

Definition sequencer_inv (s : plant) : Prop :=
  cursor_inv (toggleFlag (fw s)) (channelState (mysistem (fw s)))
             (process_pos (mysistem (fw s))) ∧
  length (channels s) = 4%nat.

(** A sequence of operations, one after the other. *)
Fixpoint run_ops (ops : list operation) (s : plant) : option plant :=
  match ops with
  | [] => Some s
  | o :: ops' => s' ← step o s; run_ops ops' s'
  end.

End Sequencer.

Arguments plant : clear implicits.

(** ** A concrete machine *)

(** A board fresh from power-up and a controller with five LEDs, on a
    system whose ADC handle carries no data. *)
Definition demo_sistem : sistem unit :=
  {| SisteminAdi := EmptyString; versiyon := EmptyString; myAds := tt;
     channelState := replicate 4 CHANNEL_IDLE;
     process := replicate 4 (Build_prc false false false);
     process_itr := 0; process_pos := 0; state := false |}.

Definition demo_machine : machine unit :=
  {| toggleFlag := toggleFlag_init;
     instance := true;
     leds := replicate 5 (Build_ledClass 0);
     mysistem := demo_sistem;
     dongu_led := replicate 4 false;
     board := {| pin_mode := ∅; pin_level := ∅; io_log := [] |} |}.

(** The same machine with LED flag 2 raised and the monitored counter at the
    threshold. *)
Definition demo_machine_busy : machine unit :=
  with_leds (<[4%nat := Build_ledClass 4]> (leds demo_machine))
    (with_toggleFlag (<[2%nat := true]> toggleFlag_init) demo_machine).

(** After the trigger: one failure, a check, an overshoot to 5, a check, a
    success, a check. *)
Definition demo_events : list monitor_event :=
  [StoreCounter 1; CallMonitor; StoreCounter 5; CallMonitor;
   StoreCounter 0; CallMonitor].

(** A machine whose status flag [toggleFlag[4]] is raised while the
    monitored counter is at the threshold. *)
Definition demo_machine_status : machine unit :=
  with_leds (<[4%nat := Build_ledClass 4]> (leds demo_machine))
    (with_toggleFlag (<[4%nat := true]> toggleFlag_init) demo_machine).

(** [demo_machine_busy] after the health check has fired. *)
Definition demo_machine_fired : machine unit :=
  with_leds (<[4%nat := Build_ledClass 0]> (leds demo_machine_busy))
    (digitalWrite 22 LOW demo_machine_busy).

(** Two rounds of four failures, each followed by a check, with a check in
    between that finds the counter at 0. *)
Definition demo_events_twice : list monitor_event :=
  [CallMonitor; CallMonitor; StoreCounter 4; CallMonitor; StoreCounter 9;
   CallMonitor].



Definition demo_plant : plant unit :=
  {| fw := demo_machine;
     channels := replicate 4 ChannelData_init;
     handed_off := [] |}.

Definition demo_cfg : Config :=
  {| time_open := 10; settle_delay := 3; sample_count := 2;
     skip_idle := false |}.

(** Channel 0 taken through LED-on and settle delay into its reading
    phase. *)
Definition demo_ticks : list operation :=
  [OpTick 0 (0, true); OpTick 10 (0, true); OpTick 13 (0, true)].

Definition demo_plant_reading : plant unit :=
  default demo_plant (run_ops demo_cfg demo_ticks demo_plant).

(** Channel 0 right after its selection. *)
Definition demo_plant_lit : plant unit :=
  default demo_plant (run_ops demo_cfg [OpTick 0 (0, true)] demo_plant).

(** * Theorems *)

(** ** Array subscripts *)

Lemma subscript_Some {A : Type} (a : list A) (i : Z) (x : A) :
  subscript a i = Some x ↔ 0 <= i ∧ a !! Z.to_nat i = Some x.
Proof.
  unfold subscript. case_decide; split; first [tauto | discriminate].
Qed.

Lemma subscript_in_range {A : Type} (a : list A) (i : Z) :
  0 <= i < Z.of_nat (length a) → is_Some (subscript a i).
Proof.
  intros Hi. unfold subscript. rewrite decide_True by lia.
  apply lookup_lt_is_Some. lia.
Qed.

Lemma subscript_nat {A : Type} (a : list A) (n : nat) :
  subscript a (Z.of_nat n) = a !! n.
Proof.
  unfold subscript. rewrite decide_True by lia. by rewrite Nat2Z.id.
Qed.

Lemma pinNos_NoDup : NoDup pinNos.
Proof. apply (bool_decide_unpack _). by vm_compute. Qed.

(** The five subscripts of [pinNos], one by one. *)
Lemma pinNos_cases (i : Z) :
  0 <= i <= 4 →
  (i = 0 ∧ subscript pinNos i = Some 4) ∨
  (i = 1 ∧ subscript pinNos i = Some 5) ∨
  (i = 2 ∧ subscript pinNos i = Some 6) ∨
  (i = 3 ∧ subscript pinNos i = Some 7) ∨
  (i = 4 ∧ subscript pinNos i = Some 22).
Proof.
  intros Hi.
  assert (i = 0 ∨ i = 1 ∨ i = 2 ∨ i = 3 ∨ i = 4) as Hc by lia.
  destruct Hc as [->|[->|[->|[->| ->]]]]; auto 10.
Qed.

Lemma pinNos_subscript_inj (i j p : Z) :
  subscript pinNos i = Some p → subscript pinNos j = Some p → i = j.
Proof.
  intros [Hi Hp]%subscript_Some [Hj Hq]%subscript_Some.
  assert (Z.to_nat i = Z.to_nat j) by (eapply NoDup_lookup; eauto using pinNos_NoDup).
  lia.
Qed.

(** ** The controller's operations *)

Section ControllerFacts.

Context {ads1115 : Type}.
Implicit Types m : machine ads1115.

Lemma toggleFlag_subscript m (i : Z) :
  length (toggleFlag m) = 5%nat → 0 <= i <= 4 →
  ∃ flag, subscript (toggleFlag m) i = Some flag.
Proof.
  intros Hlen Hi. apply (subscript_in_range (toggleFlag m) i). lia.
Qed.

Lemma pinNos_subscript (i : Z) :
  0 <= i <= 4 → ∃ p, subscript pinNos i = Some p ∧ p ∈ pinNos.
Proof.
  intros Hi.
  destruct (pinNos_cases i Hi) as [[_ E]|[[_ E]|[[_ E]|[[_ E]|[_ E]]]]];
    eexists; (split; [exact E|]); unfold pinNos; set_solver +.
Qed.

(** What one call of [update] is, once both subscripts are known. *)
Lemma update_unfold m (i p : Z) (flag : bool) :
  subscript (toggleFlag m) i = Some flag →
  subscript pinNos i = Some p →
  update i m = Some (digitalWrite p (if flag then HIGH else LOW) m).
Proof.
  intros Hf Hp. unfold update. rewrite Hf, Hp. simpl. by destruct flag.
Qed.

(** C2. For every LED index [i] from 0 to 4, [update i] returns, and the
    level of pin [pinNos[i]] afterwards is HIGH if [toggleFlag[i]] is true
    and LOW if it is false. *)
Theorem update_drives_pin m (i : Z) :
  length (toggleFlag m) = 5%nat → 0 <= i <= 4 →
  ∃ m' p flag,
    update i m = Some m' ∧
    subscript pinNos i = Some p ∧
    subscript (toggleFlag m) i = Some flag ∧
    subscript (toggleFlag m') i = Some flag ∧
    pin_level (board m') !! p = Some (if flag then HIGH else LOW).
Proof.
  intros Hlen Hi.
  destruct (toggleFlag_subscript m i Hlen Hi) as [flag Hf].
  destruct (pinNos_subscript i Hi) as (p & Hp & _).
  exists (digitalWrite p (if flag then HIGH else LOW) m), p, flag.
  split; [by apply update_unfold|].
  repeat split; try done. simpl. apply lookup_insert_eq.
Qed.

(** C8. For every LED index [i] from 0 to 4, [update i] touches nothing
    but pin [pinNos[i]]: the flags, the rest of the controller, [mysistem],
    the pin directions and the level of every other pin are as before, the
    one call made is a [digitalWrite] to that pin, and since the entries
    of [pinNos] are pairwise distinct the pins of the other LEDs are among
    the untouched ones. *)
Theorem update_frame m (i : Z) :
  length (toggleFlag m) = 5%nat → 0 <= i <= 4 →
  ∃ m' p v,
    update i m = Some m' ∧
    subscript pinNos i = Some p ∧
    toggleFlag m' = toggleFlag m ∧
    instance m' = instance m ∧
    leds m' = leds m ∧
    mysistem m' = mysistem m ∧
    dongu_led m' = dongu_led m ∧
    pin_mode (board m') = pin_mode (board m) ∧
    io_log (board m') = DigitalWriteCall p v :: io_log (board m) ∧
    (∀ q, q ≠ p → pin_level (board m') !! q = pin_level (board m) !! q) ∧
    NoDup pinNos ∧
    (∀ j q, j ≠ i → subscript pinNos j = Some q →
       pin_level (board m') !! q = pin_level (board m) !! q).
Proof.
  intros Hlen Hi.
  destruct (toggleFlag_subscript m i Hlen Hi) as [flag Hf].
  destruct (pinNos_subscript i Hi) as (p & Hp & _).
  exists (digitalWrite p (if flag then HIGH else LOW) m), p,
    (if flag then HIGH else LOW).
  split; [by apply update_unfold|].
  assert (∀ q, q ≠ p →
    pin_level (board (digitalWrite p (if flag then HIGH else LOW) m)) !! q
    = pin_level (board m) !! q) as Hother.
  { intros q Hq. simpl. by apply lookup_insert_ne. }
  repeat split; try done.
  - apply pinNos_NoDup.
  - intros j q Hj Hq. apply Hother. intros ->.
    apply Hj. eapply pinNos_subscript_inj; eauto.
Qed.

Lemma update_repeat_levels m (i p : Z) (flag : bool) (n : nat) :
  subscript (toggleFlag m) i = Some flag →
  subscript pinNos i = Some p →
  ∃ mn, update_repeat (S n) i m = Some mn ∧
        toggleFlag mn = toggleFlag m ∧
        pin_level (board mn)
        = <[p := if flag then HIGH else LOW]> (pin_level (board m)).
Proof.
  intros Hf Hp. revert m Hf. induction n as [|n IH]; intros m Hf.
  - eexists. simpl. rewrite (update_unfold m i p flag Hf Hp). simpl.
    by repeat split.
  - change (update_repeat (S (S n)) i m)
      with (m' ← update i m; update_repeat (S n) i m').
    rewrite (update_unfold m i p flag Hf Hp). simpl option_bind.
    destruct (IH (digitalWrite p (if flag then HIGH else LOW) m))
      as (mn & Hrun & Hflags & Hlev); [exact Hf|].
    exists mn. split; [exact Hrun|]. split; [exact Hflags|].
    rewrite Hlev. simpl. apply insert_insert_eq.
Qed.

(** C6. Calling [update i] again and again (the flags are not written in
    between) is idempotent on the pins: after the first call the levels
    are settled, every later call leaves all pin levels as it found them,
    and so adds no transition. *)
Theorem update_idempotent m (i : Z) (n : nat) :
  length (toggleFlag m) = 5%nat → 0 <= i <= 4 →
  ∃ m1 mn mn',
    update i m = Some m1 ∧
    update_repeat (S n) i m = Some mn ∧
    update i mn = Some mn' ∧
    toggleFlag mn = toggleFlag m ∧
    pin_level (board mn) = pin_level (board m1) ∧
    pin_level (board mn') = pin_level (board mn).
Proof.
  intros Hlen Hi.
  destruct (toggleFlag_subscript m i Hlen Hi) as [flag Hf].
  destruct (pinNos_subscript i Hi) as (p & Hp & _).
  destruct (update_repeat_levels m i p flag n Hf Hp)
    as (mn & Hrun & Hflags & Hlev).
  exists (digitalWrite p (if flag then HIGH else LOW) m), mn,
    (digitalWrite p (if flag then HIGH else LOW) mn).
  split; [by apply update_unfold|].
  split; [exact Hrun|].
  split; [apply update_unfold; [by rewrite Hflags | done]|].
  split; [exact Hflags|].
  split; [exact Hlev|].
  simpl. rewrite Hlev. apply insert_insert_eq.
Qed.

End ControllerFacts.

(** ** The connection-health check *)

Section MonitorFacts.

Context {ads1115 : Type}.
Implicit Types m : machine ads1115.

Lemma monitored_counter_Some m (c : Z) :
  monitored_counter m = Some c ↔
  ∃ l, subscript (leds m) 4 = Some l ∧ counter l = c.
Proof.
  unfold monitored_counter. rewrite fmap_Some.
  split; intros (l & Hl & Hc); exists l; by split.
Qed.

(** The two branches of [adsBaglanmadiLedBildir]. *)
Lemma adsBaglanmadiLedBildir_fires m (l : ledClass) :
  subscript (leds m) 4 = Some l → counter l = 4 →
  adsBaglanmadiLedBildir m
  = Some (with_leds (<[4%nat := set_counter 0 l]> (leds m))
            (digitalWrite 22 LOW m)).
Proof.
  intros Hl Hc. unfold adsBaglanmadiLedBildir. rewrite Hl. simpl.
  by rewrite decide_True by exact Hc.
Qed.

Lemma adsBaglanmadiLedBildir_skips m (l : ledClass) :
  subscript (leds m) 4 = Some l → counter l ≠ 4 →
  adsBaglanmadiLedBildir m = Some m.
Proof.
  intros Hl Hc. unfold adsBaglanmadiLedBildir. rewrite Hl. simpl.
  by rewrite decide_False by exact Hc.
Qed.

Lemma monitored_counter_with_leds m (l0 l : ledClass) (b : Board) :
  subscript (leds m) 4 = Some l0 →
  monitored_counter
    (with_leds (<[4%nat := l]> (leds m)) (with_board b m))
  = Some (counter l).
Proof.
  intros [_ Hl]%subscript_Some.
  unfold monitored_counter, subscript. simpl.
  change (Z.to_nat 4) with 4%nat in *.
  rewrite list_lookup_insert_eq by (by eapply lookup_lt_Some).
  reflexivity.
Qed.

(** C3. Whenever [leds[4].counter] is 4, [adsBaglanmadiLedBildir] returns
    having written LOW to pin 22 (the one call it makes) and leaves the
    counter at 0. *)
Theorem adsBaglanmadiLedBildir_at_threshold m :
  monitored_counter m = Some 4 →
  ∃ m',
    adsBaglanmadiLedBildir m = Some m' ∧
    io_log (board m') = DigitalWriteCall 22 LOW :: io_log (board m) ∧
    pin_level (board m') !! 22 = Some LOW ∧
    monitored_counter m' = Some 0.
Proof.
  intros (l & Hl & Hc)%monitored_counter_Some.
  unfold adsBaglanmadiLedBildir. rewrite Hl. simpl.
  rewrite decide_True by exact Hc.
  eexists. split; [reflexivity|]. simpl.
  split; [reflexivity|]. split; [apply lookup_insert_eq|].
  apply subscript_Some in Hl as [_ Hl]. simpl in Hl.
  unfold monitored_counter, subscript. simpl.
  change (Z.to_nat 4) with 4%nat in *.
  rewrite list_lookup_insert_eq by (by eapply lookup_lt_Some).
  reflexivity.
Qed.

(** C10. For every value of [leds[4].counter] other than 4, the values
    above 4 included, [adsBaglanmadiLedBildir] changes nothing at all: it
    makes no pin call and the counter stays as it is. *)
Theorem adsBaglanmadiLedBildir_off_threshold m (c : Z) :
  monitored_counter m = Some c → c ≠ 4 →
  adsBaglanmadiLedBildir m = Some m.
Proof.
  intros (l & Hl & Hc)%monitored_counter_Some Hne.
  unfold adsBaglanmadiLedBildir. rewrite Hl. simpl.
  rewrite decide_False by congruence. reflexivity.
Qed.

Lemma store_counter_monitored m (c c0 : Z) :
  monitored_counter m = Some c0 →
  monitored_counter (store_counter c m) = Some c ∧
  board (store_counter c m) = board m.
Proof.
  intros (l & Hl & _)%monitored_counter_Some.
  apply subscript_Some in Hl as [_ Hl]. simpl in Hl.
  split; [|reflexivity].
  unfold monitored_counter, subscript. simpl.
  change (Z.to_nat 4) with 4%nat in *.
  rewrite list_lookup_alter_eq, Hl. reflexivity.
Qed.

(** A run in which no call finds the counter at the threshold goes
    through and leaves the board alone. *)
Lemma run_monitor_quiet (evs : list monitor_event) m (c : Z) :
  monitored_counter m = Some c →
  calls_off_threshold evs c →
  ∃ m', run_monitor evs m = Some m' ∧ board m' = board m.
Proof.
  revert m c. induction evs as [|[c'|] evs IH]; intros m c Hc Hq; simpl in *.
  - by exists m.
  - destruct (store_counter_monitored m c' c Hc) as [Hc' Hb].
    destruct (IH _ _ Hc' Hq) as (m' & Hrun & Hb').
    exists m'. split; [exact Hrun | congruence].
  - destruct Hq as [Hne Hq].
    pose proof Hc as (l & Hl & <-)%monitored_counter_Some.
    rewrite (adsBaglanmadiLedBildir_skips m l Hl Hne). simpl.
    eauto.
Qed.

(** C4. Once the counter has reached 4, the indicator is written exactly
    once: the call of [adsBaglanmadiLedBildir] that finds the 4 writes LOW
    to pin 22 and leaves the counter at 0, and however the counter is
    stored to afterwards, the further calls, as long as none of them finds
    it at 4 again, write no pin: the board, its log included, stays as
    the triggering call left it. *)
Theorem fault_indicator_once m (evs : list monitor_event) :
  monitored_counter m = Some 4 →
  calls_off_threshold evs 0 →
  ∃ m1 m2,
    adsBaglanmadiLedBildir m = Some m1 ∧
    monitored_counter m1 = Some 0 ∧
    run_monitor evs m1 = Some m2 ∧
    board m2 = board m1 ∧
    writes_of (io_log (board m2)) = (22, LOW) :: writes_of (io_log (board m)).
Proof.
  intros (l & Hl & Hc)%monitored_counter_Some Hq.
  pose proof (adsBaglanmadiLedBildir_fires m l Hl Hc) as Hcall.
  pose proof (monitored_counter_with_leds m l (set_counter 0 l)
                (board_digitalWrite 22 LOW (board m)) Hl) as H0.
  destruct (run_monitor_quiet evs _ 0 H0 Hq) as (m2 & Hrun & Hb).
  eexists _, m2. split; [exact Hcall|].
  split; [exact H0|]. split; [exact Hrun|]. split; [exact Hb|].
  rewrite Hb. reflexivity.
Qed.

End MonitorFacts.

(** ** Start-up *)

Section StartupFacts.

Context {ads1115 : Type}.
Implicit Types m : machine ads1115.

(** The loop of [begin] runs its body on the five pins in order, and five
    rounds of fuel are what it needs. *)
Lemma begin_unfold m :
  begin m
  = Some (foldl (fun acc p => digitalWrite p LOW (pinMode p OUTPUT acc))
            m pinNos).
Proof. reflexivity. Qed.

Lemma begin_toggleFlag m m' : begin m = Some m' → toggleFlag m' = toggleFlag m.
Proof. rewrite begin_unfold. by intros [= <-]. Qed.

Lemma begin_pins m m' (p : Z) :
  begin m = Some m' → p ∈ pinNos →
  pin_mode (board m') !! p = Some OUTPUT ∧
  pin_level (board m') !! p = Some LOW.
Proof.
  rewrite begin_unfold. intros [= <-] Hp.
  unfold pinNos in Hp. rewrite !elem_of_cons, elem_of_nil in Hp.
  simpl.
  destruct Hp as [->|[->|[->|[->|[->|[]]]]]];
    split;
    repeat first [ by rewrite lookup_insert_eq
                 | rewrite lookup_insert_ne by lia ].
Qed.

(** C9. Started with the flags at their static initial value (all false),
    [begin] returns, and for each of the five LED indices the pin
    [pinNos[i]] (4, 5, 6, 7, 22) is then an output at LOW, the flag is
    still false, and an [update i] right after changes no pin level. *)
Theorem begin_then_update m (i : Z) :
  toggleFlag m = toggleFlag_init → 0 <= i <= 4 →
  ∃ m' p m'',
    begin m = Some m' ∧
    subscript pinNos i = Some p ∧
    pin_mode (board m') !! p = Some OUTPUT ∧
    pin_level (board m') !! p = Some LOW ∧
    subscript (toggleFlag m') i = Some false ∧
    update i m' = Some m'' ∧
    pin_level (board m'') = pin_level (board m').
Proof.
  intros Hflags Hi.
  destruct (begin m) as [m'|] eqn:Hb; [|by rewrite begin_unfold in Hb].
  destruct (pinNos_subscript i Hi) as (p & Hp & Hin).
  destruct (begin_pins m m' p Hb Hin) as [Hmode Hlevel].
  assert (subscript (toggleFlag m') i = Some false) as Hf.
  { rewrite (begin_toggleFlag m m' Hb), Hflags.
    destruct (subscript_in_range toggleFlag_init i) as [f Hf];
      [simpl; lia|].
    rewrite Hf. f_equal.
    apply subscript_Some in Hf as [_ Hf].
    unfold toggleFlag_init in Hf.
    by apply lookup_replicate in Hf as [-> _]. }
  exists m', p, (digitalWrite p LOW m').
  repeat split; try done.
  - by rewrite (update_unfold m' i p false Hf Hp).
  - simpl. by apply insert_id.
Qed.

Lemma static_storage_enumerators :
  mapM ChannelState_of_value (raw_channelState static_storage)
  = Some (replicate 4 CHANNEL_IDLE).
Proof. reflexivity. Qed.

(** C7. At start-up every channel is in [CHANNEL_IDLE]: the construction
    of the static [mysistem] succeeds, and [channelState[i]] of the result
    is [CHANNEL_IDLE] for every [i] from 0 to 3. *)
Theorem mysistem_startup_idle (ads : ads1115) (i : Z) :
  0 <= i <= 3 →
  ∃ s, mysistem_startup ads = Some s ∧
       length (channelState s) = 4%nat ∧
       subscript (channelState s) i = Some CHANNEL_IDLE.
Proof.
  intros Hi. unfold mysistem_startup, sistem_ctor.
  rewrite static_storage_enumerators. simpl.
  eexists. split; [reflexivity|]. simpl. split; [reflexivity|].
  apply subscript_Some. split; [lia|].
  apply (lookup_replicate_2 4 CHANNEL_IDLE). lia.
Qed.

(** The constructor itself does not write [channelState]: over storage
    that holds another enumerator's value the channel comes out in that
    state. *)
Lemma sistem_ctor_keeps_storage (ads : ads1115) :
  channelState <$>
    sistem_ctor ads {| raw_channelState := [3; 0; 0; 0];
                       raw_process := raw_process static_storage;
                       raw_state := false |}
  = Some [ADC_READING_PHASE; CHANNEL_IDLE; CHANNEL_IDLE; CHANNEL_IDLE].
Proof. reflexivity. Qed.

End StartupFacts.

(** ** The sequencer's invariant *)

Section CursorInv.

Implicit Types (tf : list bool) (cs : list ChannelState) (pos : Z).

(** The channel at the cursor changes state and flag together. *)
Lemma cursor_inv_move tf cs pos (c : ChannelState) (f : bool) :
  cursor_inv tf cs pos →
  (f = true ↔ c = LED_ON) →
  cursor_inv (<[Z.to_nat pos := f]> tf) (<[Z.to_nat pos := c]> cs) pos.
Proof.
  intros (Htf & Hcs & Hpos & Hidle & Hflag) Hfc.
  split_and!; try lia.
  - by rewrite length_insert.
  - by rewrite length_insert.
  - intros i c' Hc' Hi.
    rewrite list_lookup_insert_ne in Hc' by lia. eauto.
  - intros i c' f' Hc' Hf'.
    destruct (decide (i = Z.to_nat pos)) as [->|Hne].
    + rewrite list_lookup_insert_eq in Hc' by lia.
      rewrite list_lookup_insert_eq in Hf' by lia.
      by simplify_eq.
    + rewrite list_lookup_insert_ne in Hc' by done.
      rewrite list_lookup_insert_ne in Hf' by done.
      by apply (Hflag i).
Qed.

(** The channel at the cursor moves between two states other than
    [LED_ON]; its flag is not written. *)
Lemma cursor_inv_set tf cs pos (c0 c : ChannelState) :
  cursor_inv tf cs pos →
  cs !! Z.to_nat pos = Some c0 → c0 ≠ LED_ON → c ≠ LED_ON →
  cursor_inv tf (<[Z.to_nat pos := c]> cs) pos.
Proof.
  intros Hinv Hc0 Hn0 Hn.
  pose proof Hinv as (Htf & Hcs & Hpos & _ & Hflag).
  destruct (lookup_lt_is_Some_2 tf (Z.to_nat pos)) as [f Hf]; [lia|].
  assert (f = false) as ->.
  { destruct f; [|done]. by destruct (proj1 (Hflag _ _ _ Hc0 Hf)). }
  rewrite <- (list_insert_id tf (Z.to_nat pos) false Hf).
  apply cursor_inv_move; [done|]. split; [done | by intros ->].
Qed.

(** The channel at the cursor is deselected and the cursor moves on. *)
Lemma cursor_inv_deselect tf cs pos pos' (c0 : ChannelState) :
  cursor_inv tf cs pos →
  cs !! Z.to_nat pos = Some c0 → c0 ≠ LED_ON →
  0 <= pos' < 4 →
  cursor_inv tf (<[Z.to_nat pos := CHANNEL_IDLE]> cs) pos'.
Proof.
  intros Hinv Hc0 Hn0 Hpos'.
  destruct (cursor_inv_set tf cs pos c0 CHANNEL_IDLE Hinv Hc0 Hn0)
    as (Htf & Hcs & Hpos & Hidle & Hflag); [done|].
  split_and!; try done; try lia.
  intros i c Hc _.
  destruct (decide (i = Z.to_nat pos)) as [->|Hne].
  - rewrite list_lookup_insert_eq in Hc by (destruct Hinv; lia). congruence.
  - apply (Hidle i c Hc). lia.
Qed.

(** After a reset. *)
Lemma cursor_inv_reset pos :
  0 <= pos < 4 →
  cursor_inv (replicate 5 false) (replicate 4 CHANNEL_IDLE) pos.
Proof.
  intros Hpos. split_and!; try done; try lia.
  - by intros i c [-> _]%lookup_replicate _.
  - intros i c f [-> _]%lookup_replicate [-> _]%lookup_replicate. done.
Qed.

Lemma cursor_inv_exclusive tf cs pos (i j : nat) :
  cursor_inv tf cs pos →
  cs !! i = Some ADC_READING_PHASE → cs !! j = Some ADC_READING_PHASE →
  i = j.
Proof.
  intros (_ & _ & _ & Hidle & _) Hi Hj.
  destruct (decide (Z.of_nat i = pos)) as [Hip|Hip];
    [|by specialize (Hidle i _ Hi Hip)].
  destruct (decide (Z.of_nat j = pos)) as [Hjp|Hjp];
    [|by specialize (Hidle j _ Hj Hjp)].
  lia.
Qed.

End CursorInv.

Section SequencerFacts.

Context {ads1115 : Type}.
Variable cfg : Config.
Implicit Types (m : machine ads1115) (s : plant ads1115).

Lemma update_keeps m (i : Z) m' :
  update i m = Some m' →
  toggleFlag m' = toggleFlag m ∧ mysistem m' = mysistem m.
Proof.
  unfold update. intros Hu.
  destruct (subscript (toggleFlag m) i) as [flag|]; [|done].
  destruct (subscript pinNos i) as [p|]; [|done].
  simpl in Hu. by destruct flag; simplify_eq.
Qed.

Lemma begin_keeps m m' :
  begin m = Some m' →
  toggleFlag m' = toggleFlag m ∧ mysistem m' = mysistem m.
Proof. rewrite begin_unfold. by intros [= <-]. Qed.

Lemma adsBaglanmadiLedBildir_keeps m m' :
  adsBaglanmadiLedBildir m = Some m' →
  toggleFlag m' = toggleFlag m ∧ mysistem m' = mysistem m.
Proof.
  unfold adsBaglanmadiLedBildir. intros Ha.
  destruct (subscript (leds m) 4) as [l|]; [|done].
  simpl in Ha. by case_decide; simplify_eq.
Qed.

(** An operation of the controller, which writes neither the flags nor
    [mysistem], keeps the invariant. *)
Lemma sequencer_inv_with_fw s m' :
  toggleFlag m' = toggleFlag (fw s) → mysistem m' = mysistem (fw s) →
  sequencer_inv s → sequencer_inv (with_fw m' s).
Proof.
  intros Hf Hs [Hc Hlen]. split; [|exact Hlen].
  simpl. by rewrite Hf, Hs.
Qed.

Lemma startup_inv s : startup s → sequencer_inv s.
Proof.
  intros (Hf & Hs & _ & _ & Hch).
  unfold mysistem_startup, sistem_ctor in Hs.
  rewrite static_storage_enumerators in Hs. simpl in Hs.
  injection Hs as Hs.
  split; [|by rewrite Hch].
  rewrite Hf, <- Hs. simpl. by apply cursor_inv_reset.
Qed.

Lemma tick_inv s (now : Z) (sample : Z * bool) s' :
  sequencer_inv s → tick cfg now sample s = Some s' → sequencer_inv s'.
Proof.
  intros [Hc Hlen]. unfold tick.
  destruct (subscript (channelState (mysistem (fw s))) _) as [c|] eqn:Hcs;
    [|done].
  destruct (subscript (channels s) _) as [d|] eqn:Hd; [|done].
  apply subscript_Some in Hcs as [Hpos Hcs]. simpl.
  destruct c.
  - (* CHANNEL_IDLE → LED_ON *)
    intros [= <-]. split; simpl; [|by rewrite length_alter].
    by apply cursor_inv_move.
  - (* LED_ON → DELAY_COUNTING *)
    case_decide; intros [= <-]; [|by split].
    split; simpl; [|by rewrite length_insert].
    apply cursor_inv_move; [done|]. by split.
  - (* DELAY_COUNTING → ADC_READING_PHASE *)
    case_decide; intros [= <-]; [|by split].
    split; simpl; [|by rewrite length_insert].
    by apply (cursor_inv_set _ _ _ DELAY_COUNTING).
  - (* ADC_READING_PHASE → CYCLE_COMPLETE *)
    case_decide; intros [= <-]; (split; simpl; [|by rewrite length_insert]);
      [|done].
    by apply (cursor_inv_set _ _ _ ADC_READING_PHASE).
  - (* CYCLE_COMPLETE → CHANNEL_IDLE, and the cursor moves on *)
    assert (0 <= (process_pos (mysistem (fw s)) + 1) `mod` 4 < 4) as Hnext
      by (apply Z.mod_pos_bound; lia).
    pose proof (cursor_inv_deselect _ _ _ _ CYCLE_COMPLETE Hc Hcs
                  ltac:(done) Hnext) as Hack.
    destruct (skip_idle cfg); intros [= <-].
    + split; simpl; [|by rewrite length_alter, length_insert].
      by apply cursor_inv_move.
    + split; simpl; [done | by rewrite length_insert].
Qed.

Lemma reset_inv s : sequencer_inv s → sequencer_inv (reset s).
Proof.
  intros [(_ & _ & Hpos & _) _]. split; [|done].
  simpl. by apply cursor_inv_reset.
Qed.

(** Every operation keeps the invariant. *)
Lemma step_inv (o : operation) s s' :
  sequencer_inv s → step cfg o s = Some s' → sequencer_inv s'.
Proof.
  intros Hinv. destruct o as [now sample|i| | |]; simpl.
  - by apply tick_inv.
  - destruct (update i (fw s)) as [m'|] eqn:Hu; [|done]. intros [= <-].
    destruct (update_keeps _ _ _ Hu). by apply sequencer_inv_with_fw.
  - destruct (begin (fw s)) as [m'|] eqn:Hb; [|done]. intros [= <-].
    destruct (begin_keeps _ _ Hb). by apply sequencer_inv_with_fw.
  - destruct (adsBaglanmadiLedBildir (fw s)) as [m'|] eqn:Ha; [|done].
    intros [= <-].
    destruct (adsBaglanmadiLedBildir_keeps _ _ Ha).
    by apply sequencer_inv_with_fw.
  - intros [= <-]. by apply reset_inv.
Qed.

Lemma reachable_inv s : reachable cfg s → sequencer_inv s.
Proof.
  induction 1 as [s Hs|s o s' _ IH Hstep].
  - by apply startup_inv.
  - by apply (step_inv o s).
Qed.

Lemma reachable_run_ops (ops : list operation) s s' :
  reachable cfg s → run_ops cfg ops s = Some s' → reachable cfg s'.
Proof.
  revert s. induction ops as [|o ops IH]; intros s Hr; simpl.
  - by intros [= <-].
  - destruct (step cfg o s) as [s1|] eqn:Hstep; [|done]. simpl.
    apply IH. by apply (reachable_step cfg s o).
Qed.

Lemma sequencer_inv_exclusive s : sequencer_inv s → adc_exclusive s.
Proof.
  intros [Hc _] i j Hi Hj [_ Hci]%subscript_Some [_ Hcj]%subscript_Some.
  pose proof (cursor_inv_exclusive _ _ _ _ _ Hc Hci Hcj). lia.
Qed.

(** C1. In every reachable state at most one of the channels 0 to 3 is
    in [ADC_READING_PHASE], and every operation of the system, applied to
    a reachable state, ends in a state for which this holds again. *)
Theorem adc_mutual_exclusion s :
  reachable cfg s →
  adc_exclusive s ∧
  ∀ (o : operation) s', step cfg o s = Some s' → adc_exclusive s'.
Proof.
  intros Hr%reachable_inv. split.
  - by apply sequencer_inv_exclusive.
  - intros o s' Hstep. apply sequencer_inv_exclusive.
    by apply (step_inv o s).
Qed.

(** C5. In every reachable state and for every channel [i] from 0 to 3,
    [toggleFlag[i]] is true if and only if [channelState[i]] is [LED_ON];
    in particular it is false in each of the four other states. *)
Theorem toggleFlag_iff_LED_ON s (i : Z) :
  reachable cfg s → 0 <= i <= 3 →
  ∃ c f,
    subscript (channelState (mysistem (fw s))) i = Some c ∧
    subscript (toggleFlag (fw s)) i = Some f ∧
    (f = true ↔ c = LED_ON) ∧
    (c ∈ [DELAY_COUNTING; ADC_READING_PHASE; CYCLE_COMPLETE; CHANNEL_IDLE] →
     f = false).
Proof.
  intros [(Htf & Hcs & _ & _ & Hflag) _]%reachable_inv Hi.
  destruct (subscript_in_range (channelState (mysistem (fw s))) i)
    as [c Hc]; [lia|].
  destruct (subscript_in_range (toggleFlag (fw s)) i) as [f Hf]; [lia|].
  exists c, f. split_and!; try done.
  - apply subscript_Some in Hc as [_ Hc]. apply subscript_Some in Hf as [_ Hf].
    by apply (Hflag (Z.to_nat i)).
  - intros Hin.
    apply subscript_Some in Hc as [_ Hc]. apply subscript_Some in Hf as [_ Hf].
    destruct f; [|done].
    rewrite (proj1 (Hflag _ _ _ Hc Hf) eq_refl) in Hin.
    rewrite !elem_of_cons, elem_of_nil in Hin. intuition discriminate.
Qed.

End SequencerFacts.

(** ** The theorems at concrete states *)

Lemma demo_plant_startup : startup demo_plant.
Proof. unfold startup. by split_and!. Qed.

Lemma demo_plant_reading_reachable : reachable demo_cfg demo_plant_reading.
Proof.
  apply (reachable_run_ops demo_cfg demo_ticks demo_plant).
  - apply reachable_startup, demo_plant_startup.
  - reflexivity.
Qed.

Lemma demo_plant_lit_reachable : reachable demo_cfg demo_plant_lit.
Proof.
  apply (reachable_run_ops demo_cfg [OpTick 0 (0, true)] demo_plant).
  - apply reachable_startup, demo_plant_startup.
  - reflexivity.
Qed.

(** Channel 0 of [demo_plant_reading] is indeed reading. *)
Example demo_plant_reading_state :
  channelState (mysistem (fw demo_plant_reading))
  = [ADC_READING_PHASE; CHANNEL_IDLE; CHANNEL_IDLE; CHANNEL_IDLE].
Proof. reflexivity. Qed.

Lemma adc_mutual_exclusion_witness :
  reachable demo_cfg demo_plant_reading ∧
  (adc_exclusive demo_plant_reading ∧
   ∀ (o : operation) s', step demo_cfg o demo_plant_reading = Some s' →
     adc_exclusive s').
Proof.
  split; [exact demo_plant_reading_reachable|].
  apply (adc_mutual_exclusion demo_cfg demo_plant_reading).
  exact demo_plant_reading_reachable.
Defined.

Lemma toggleFlag_iff_LED_ON_witness :
  reachable demo_cfg demo_plant_lit ∧ 0 <= 0 <= 3 ∧
  ∃ c f,
    subscript (channelState (mysistem (fw demo_plant_lit))) 0 = Some c ∧
    subscript (toggleFlag (fw demo_plant_lit)) 0 = Some f ∧
    (f = true ↔ c = LED_ON) ∧
    (c ∈ [DELAY_COUNTING; ADC_READING_PHASE; CYCLE_COMPLETE; CHANNEL_IDLE] →
     f = false).
Proof.
  split; [exact demo_plant_lit_reachable|]. split; [lia|].
  apply (toggleFlag_iff_LED_ON demo_cfg demo_plant_lit 0);
    [exact demo_plant_lit_reachable | lia].
Defined.

Lemma update_drives_pin_witness :
  ∃ m' p flag,
    update 2 demo_machine_busy = Some m' ∧
    subscript pinNos 2 = Some p ∧
    subscript (toggleFlag demo_machine_busy) 2 = Some flag ∧
    subscript (toggleFlag m') 2 = Some flag ∧
    pin_level (board m') !! p = Some (if flag then HIGH else LOW).
Proof. apply (update_drives_pin demo_machine_busy 2); [reflexivity | lia]. Defined.

Lemma update_frame_witness :
  ∃ m' p v,
    update 2 demo_machine_busy = Some m' ∧
    subscript pinNos 2 = Some p ∧
    toggleFlag m' = toggleFlag demo_machine_busy ∧
    instance m' = instance demo_machine_busy ∧
    leds m' = leds demo_machine_busy ∧
    mysistem m' = mysistem demo_machine_busy ∧
    dongu_led m' = dongu_led demo_machine_busy ∧
    pin_mode (board m') = pin_mode (board demo_machine_busy) ∧
    io_log (board m') = DigitalWriteCall p v :: io_log (board demo_machine_busy) ∧
    (∀ q, q ≠ p →
       pin_level (board m') !! q = pin_level (board demo_machine_busy) !! q) ∧
    NoDup pinNos ∧
    (∀ j q, j ≠ 2 → subscript pinNos j = Some q →
       pin_level (board m') !! q = pin_level (board demo_machine_busy) !! q).
Proof. apply (update_frame demo_machine_busy 2); [reflexivity | lia]. Defined.

Lemma update_idempotent_witness :
  ∃ m1 mn mn',
    update 2 demo_machine_busy = Some m1 ∧
    update_repeat 4 2 demo_machine_busy = Some mn ∧
    update 2 mn = Some mn' ∧
    toggleFlag mn = toggleFlag demo_machine_busy ∧
    pin_level (board mn) = pin_level (board m1) ∧
    pin_level (board mn') = pin_level (board mn).
Proof.
  apply (update_idempotent demo_machine_busy 2 3); [reflexivity | lia].
Defined.

Lemma adsBaglanmadiLedBildir_at_threshold_witness :
  monitored_counter demo_machine_busy = Some 4 ∧
  ∃ m',
    adsBaglanmadiLedBildir demo_machine_busy = Some m' ∧
    io_log (board m') = DigitalWriteCall 22 LOW :: io_log (board demo_machine_busy) ∧
    pin_level (board m') !! 22 = Some LOW ∧
    monitored_counter m' = Some 0.
Proof.
  split; [reflexivity|].
  apply (adsBaglanmadiLedBildir_at_threshold demo_machine_busy). reflexivity.
Defined.

Lemma adsBaglanmadiLedBildir_off_threshold_witness :
  monitored_counter (store_counter 7 demo_machine) = Some 7 ∧ 7 ≠ 4 ∧
  adsBaglanmadiLedBildir (store_counter 7 demo_machine)
  = Some (store_counter 7 demo_machine).
Proof.
  split; [reflexivity|]. split; [lia|].
  apply (adsBaglanmadiLedBildir_off_threshold (store_counter 7 demo_machine) 7);
    [reflexivity | lia].
Defined.

Lemma fault_indicator_once_witness :
  monitored_counter demo_machine_busy = Some 4 ∧
  calls_off_threshold demo_events 0 ∧
  ∃ m1 m2,
    adsBaglanmadiLedBildir demo_machine_busy = Some m1 ∧
    monitored_counter m1 = Some 0 ∧
    run_monitor demo_events m1 = Some m2 ∧
    board m2 = board m1 ∧
    writes_of (io_log (board m2))
    = (22, LOW) :: writes_of (io_log (board demo_machine_busy)).
Proof.
  assert (calls_off_threshold demo_events 0) as Hq by (simpl; split_and!; lia).
  split; [reflexivity|]. split; [exact Hq|].
  apply (fault_indicator_once demo_machine_busy demo_events);
    [reflexivity | exact Hq].
Defined.

Lemma begin_then_update_witness :
  toggleFlag demo_machine = toggleFlag_init ∧ 0 <= 4 <= 4 ∧
  ∃ m' p m'',
    begin demo_machine = Some m' ∧
    subscript pinNos 4 = Some p ∧
    pin_mode (board m') !! p = Some OUTPUT ∧
    pin_level (board m') !! p = Some LOW ∧
    subscript (toggleFlag m') 4 = Some false ∧
    update 4 m' = Some m'' ∧
    pin_level (board m'') = pin_level (board m').
Proof.
  split; [reflexivity|]. split; [lia|].
  apply (begin_then_update demo_machine 4); [reflexivity | lia].
Defined.

Lemma mysistem_startup_idle_witness :
  0 <= 2 <= 3 ∧
  ∃ s, mysistem_startup tt = Some s ∧
       length (channelState s) = 4%nat ∧
       subscript (channelState s) 2 = Some CHANNEL_IDLE.
Proof. split; [lia|]. apply (mysistem_startup_idle tt 2). lia. Defined.

(** * Further properties of the controller *)

(** ** [begin] *)

Section BeginFacts.

Context {ads1115 : Type}.
Implicit Types m : machine ads1115.

Lemma not_in_pinNos (q : Z) :
  q ∉ pinNos ↔ q ≠ 4 ∧ q ≠ 5 ∧ q ≠ 6 ∧ q ≠ 7 ∧ q ≠ 22.
Proof.
  unfold pinNos. rewrite !not_elem_of_cons. split.
  - intros (? & ? & ? & ? & ? & _). by split_and!.
  - intros (? & ? & ? & ? & ?). split_and!; try done. apply not_elem_of_nil.
Qed.

Lemma begin_other_pins m m' (q : Z) :
  begin m = Some m' → q ∉ pinNos →
  pin_mode (board m') !! q = pin_mode (board m) !! q ∧
  pin_level (board m') !! q = pin_level (board m) !! q.
Proof.
  rewrite begin_unfold. intros [= <-] (? & ? & ? & ? & ?)%not_in_pinNos.
  simpl. split; by rewrite !lookup_insert_ne by done.
Qed.

(** Two machines that agree on the pins outside [pinNos] have the same
    pin directions and levels after [begin]. *)
Lemma begin_settles m1 m2 m1' m2' :
  (∀ q, q ∉ pinNos →
     pin_mode (board m1) !! q = pin_mode (board m2) !! q ∧
     pin_level (board m1) !! q = pin_level (board m2) !! q) →
  begin m1 = Some m1' → begin m2 = Some m2' →
  pin_mode (board m1') = pin_mode (board m2') ∧
  pin_level (board m1') = pin_level (board m2').
Proof.
  intros Hagree H1 H2.
  split; apply map_eq; intros q; destruct (decide (q ∈ pinNos)) as [Hq|Hq].
  - destruct (begin_pins m1 m1' q H1 Hq) as [-> _].
    by destruct (begin_pins m2 m2' q H2 Hq) as [-> _].
  - destruct (begin_other_pins m1 m1' q H1 Hq) as [-> _].
    destruct (begin_other_pins m2 m2' q H2 Hq) as [-> _].
    by apply Hagree.
  - destruct (begin_pins m1 m1' q H1 Hq) as [_ ->].
    by destruct (begin_pins m2 m2' q H2 Hq) as [_ ->].
  - destruct (begin_other_pins m1 m1' q H1 Hq) as [_ ->].
    destruct (begin_other_pins m2 m2' q H2 Hq) as [_ ->].
    by apply Hagree.
Qed.

(** What [update] returns when it returns. *)
Lemma update_Some_inv m (i : Z) m' :
  update i m = Some m' →
  ∃ p flag, subscript pinNos i = Some p ∧
            subscript (toggleFlag m) i = Some flag ∧
            m' = digitalWrite p (if flag then HIGH else LOW) m.
Proof.
  unfold update. intros Hu.
  destruct (subscript (toggleFlag m) i) as [flag|]; [|done].
  destruct (subscript pinNos i) as [p|]; [|done].
  exists p, flag. simpl in Hu. by destruct flag; simplify_eq.
Qed.

Lemma subscript_pinNos_elem (i p : Z) : subscript pinNos i = Some p → p ∈ pinNos.
Proof.
  intros [_ Hp]%subscript_Some. by eapply list_elem_of_lookup_2.
Qed.

(** X1. [begin] always returns.  It makes ten pin calls, for each of the pins
    4, 5, 6, 7, 22 in this order first [pinMode(OUTPUT)] and then
    [digitalWrite(LOW)], and it writes nothing else: the flags, the
    singleton pointer, [leds], [mysistem] and [dongu_led] are as before, and
    a pin [q] that is not an LED pin keeps its direction and level. *)
Theorem begin_frame m (q : Z) :
  q ∉ pinNos →
  ∃ m',
    begin m = Some m' ∧
    toggleFlag m' = toggleFlag m ∧
    instance m' = instance m ∧
    leds m' = leds m ∧
    mysistem m' = mysistem m ∧
    dongu_led m' = dongu_led m ∧
    io_log (board m') = begin_calls ++ io_log (board m) ∧
    pin_mode (board m') !! q = pin_mode (board m) !! q ∧
    pin_level (board m') !! q = pin_level (board m) !! q.
Proof.
  intros Hq.
  destruct (begin m) as [m'|] eqn:Hb; [|by rewrite begin_unfold in Hb].
  destruct (begin_other_pins m m' q Hb Hq) as [Hmode Hlevel].
  exists m'. split; [done|].
  rewrite begin_unfold in Hb. injection Hb as <-.
  by split_and!.
Qed.

(** X2. [begin] does not look at the flags: an LED whose flag is true is
    nevertheless driven LOW, so pin and flag disagree after [begin], until
    the next [update] of that LED drives the pin HIGH. *)
Theorem begin_overrides_flag m (i : Z) :
  subscript (toggleFlag m) i = Some true → 0 <= i <= 4 →
  ∃ m' p m'',
    begin m = Some m' ∧
    subscript pinNos i = Some p ∧
    subscript (toggleFlag m') i = Some true ∧
    pin_level (board m') !! p = Some LOW ∧
    update i m' = Some m'' ∧
    pin_level (board m'') !! p = Some HIGH.
Proof.
  intros Hf Hi.
  destruct (begin m) as [m'|] eqn:Hb; [|by rewrite begin_unfold in Hb].
  destruct (pinNos_subscript i Hi) as (p & Hp & Hin).
  destruct (begin_pins m m' p Hb Hin) as [_ Hlevel].
  assert (subscript (toggleFlag m') i = Some true) as Hf'
    by (by rewrite (begin_toggleFlag m m' Hb)).
  exists m', p, (digitalWrite p HIGH m').
  split_and!; try done.
  - by rewrite (update_unfold m' i p true Hf' Hp).
  - simpl. apply lookup_insert_eq.
Qed.

(** X3. Calling [begin] a second time changes no pin direction and no pin
    level. *)
Theorem begin_idempotent m :
  ∃ m1 m2,
    begin m = Some m1 ∧
    begin m1 = Some m2 ∧
    pin_mode (board m2) = pin_mode (board m1) ∧
    pin_level (board m2) = pin_level (board m1) ∧
    toggleFlag m2 = toggleFlag m.
Proof.
  destruct (begin m) as [m1|] eqn:H1; [|by rewrite begin_unfold in H1].
  destruct (begin m1) as [m2|] eqn:H2; [|by rewrite begin_unfold in H2].
  exists m1, m2.
  destruct (begin_settles m1 m m2 m1) as [Hmode Hlevel]; try done.
  { intros q Hq. by apply (begin_other_pins m m1). }
  split_and!; try done.
  by rewrite (begin_toggleFlag m1 m2 H2), (begin_toggleFlag m m1 H1).
Qed.

(** X4. [begin] wipes out what an earlier [update] did to the pins: run after
    [update i] it leaves the same directions and levels as run without
    it. *)
Theorem begin_absorbs_update m (i : Z) m1 :
  update i m = Some m1 →
  ∃ m' m1',
    begin m = Some m' ∧
    begin m1 = Some m1' ∧
    pin_mode (board m1') = pin_mode (board m') ∧
    pin_level (board m1') = pin_level (board m') ∧
    toggleFlag m1' = toggleFlag m'.
Proof.
  intros (p & flag & Hp & _ & ->)%update_Some_inv.
  destruct (begin m) as [m'|] eqn:H1; [|by rewrite begin_unfold in H1].
  destruct (begin (digitalWrite p (if flag then HIGH else LOW) m))
    as [m1'|] eqn:H2; [|by rewrite begin_unfold in H2].
  exists m', m1'.
  destruct (begin_settles (digitalWrite p (if flag then HIGH else LOW) m)
              m m1' m') as [Hmode Hlevel]; try done.
  { intros q Hq. split; [done|]. simpl. apply lookup_insert_ne.
    intros ->. by apply Hq, (subscript_pinNos_elem i). }
  split_and!; try done.
  by rewrite (begin_toggleFlag _ m1' H2), (begin_toggleFlag m m' H1).
Qed.

End BeginFacts.

(** ** [update] *)

Section UpdateFacts.

Context {ads1115 : Type}.
Implicit Types m : machine ads1115.

(** X5. [update] does no bounds check of its own: with the five flags the
    declaration provides, its result is defined exactly for the indices 0
    to 4. *)
Theorem update_defined_iff m (i : Z) :
  length (toggleFlag m) = 5%nat →
  is_Some (update i m) ↔ 0 <= i <= 4.
Proof.
  intros Hlen. split.
  - intros [m' (p & _ & [Hi Hp]%subscript_Some & _)%update_Some_inv].
    apply lookup_lt_Some in Hp. simpl in Hp. lia.
  - intros Hi.
    destruct (toggleFlag_subscript m i Hlen Hi) as [flag Hf].
    destruct (pinNos_subscript i Hi) as (p & Hp & _).
    rewrite (update_unfold m i p flag Hf Hp). by eexists.
Qed.

(** X6. Updates of two different LEDs do not interfere: in either order they
    return, and they leave the same flags, pin directions and pin levels;
    only the order of the two [digitalWrite] calls in the log differs. *)
Theorem update_commute m (i j : Z) :
  length (toggleFlag m) = 5%nat → 0 <= i <= 4 → 0 <= j <= 4 → i ≠ j →
  ∃ mi mij mj mji ei ej,
    update i m = Some mi ∧ update j mi = Some mij ∧
    update j m = Some mj ∧ update i mj = Some mji ∧
    toggleFlag mij = toggleFlag mji ∧
    pin_mode (board mij) = pin_mode (board mji) ∧
    pin_level (board mij) = pin_level (board mji) ∧
    io_log (board mij) = ej :: ei :: io_log (board m) ∧
    io_log (board mji) = ei :: ej :: io_log (board m).
Proof.
  intros Hlen Hi Hj Hne.
  destruct (toggleFlag_subscript m i Hlen Hi) as [fi Hfi].
  destruct (toggleFlag_subscript m j Hlen Hj) as [fj Hfj].
  destruct (pinNos_subscript i Hi) as (pi & Hpi & _).
  destruct (pinNos_subscript j Hj) as (pj & Hpj & _).
  assert (pi ≠ pj) as Hp.
  { intros ->. apply Hne. by apply (pinNos_subscript_inj i j pj). }
  set (vi := if fi then HIGH else LOW). set (vj := if fj then HIGH else LOW).
  exists (digitalWrite pi vi m), (digitalWrite pj vj (digitalWrite pi vi m)),
    (digitalWrite pj vj m), (digitalWrite pi vi (digitalWrite pj vj m)),
    (DigitalWriteCall pi vi), (DigitalWriteCall pj vj).
  split; [by apply update_unfold|].
  split; [by apply update_unfold|].
  split; [by apply update_unfold|].
  split; [by apply update_unfold|].
  split_and!; try done.
  simpl. by apply insert_insert_ne.
Qed.

(** X7. Pin 22 has two writers, [update 4] and [adsBaglanmadiLedBildir], and
    the one that runs last decides its level.  With the counter at 4, an
    [update 4] after the health check puts the pin at what [toggleFlag[4]]
    says, HIGH again if the flag is true, with the counter already back at
    0; the health check after [update 4] leaves the pin LOW while the flag
    is what it was. *)
Theorem status_pin_last_writer m (flag : bool) :
  subscript (toggleFlag m) 4 = Some flag →
  monitored_counter m = Some 4 →
  (∃ m1 m2,
     adsBaglanmadiLedBildir m = Some m1 ∧
     update 4 m1 = Some m2 ∧
     pin_level (board m2) !! 22 = Some (if flag then HIGH else LOW) ∧
     monitored_counter m2 = Some 0) ∧
  (∃ m1 m2,
     update 4 m = Some m1 ∧
     adsBaglanmadiLedBildir m1 = Some m2 ∧
     pin_level (board m2) !! 22 = Some LOW ∧
     subscript (toggleFlag m2) 4 = Some flag).
Proof.
  intros Hf (l & Hl & Hc)%monitored_counter_Some.
  assert (subscript pinNos 4 = Some 22) as Hp by reflexivity.
  split.
  - eexists _, _.
    split; [by apply (adsBaglanmadiLedBildir_fires m l)|].
    split; [by apply (update_unfold _ 4 22 flag)|].
    split; [simpl; apply lookup_insert_eq|].
    apply (monitored_counter_with_leds m l (set_counter 0 l) _ Hl).
  - eexists _, _.
    split; [by apply (update_unfold m 4 22 flag)|].
    split; [by apply (adsBaglanmadiLedBildir_fires _ l)|].
    split; [simpl; apply lookup_insert_eq | done].
Qed.

End UpdateFacts.

(** ** [adsBaglanmadiLedBildir] *)

Section MonitorMoreFacts.

Context {ads1115 : Type}.
Implicit Types m : machine ads1115.

(** What [adsBaglanmadiLedBildir] returns when it returns. *)
Lemma adsBaglanmadiLedBildir_Some_inv m m' :
  adsBaglanmadiLedBildir m = Some m' →
  ∃ l, subscript (leds m) 4 = Some l ∧
       ((counter l = 4 ∧
         m' = with_leds (<[4%nat := set_counter 0 l]> (leds m))
                (digitalWrite 22 LOW m)) ∨
        (counter l ≠ 4 ∧ m' = m)).
Proof.
  unfold adsBaglanmadiLedBildir. intros Ha.
  destruct (subscript (leds m) 4) as [l|]; [|done].
  exists l. split; [done|]. simpl in Ha.
  case_decide; simplify_eq; [by left | by right].
Qed.

(** X8. After a call of [adsBaglanmadiLedBildir] the counter is never at the
    threshold: it is the value found, if that was not 4, and 0 if it
    was. *)
Theorem adsBaglanmadiLedBildir_counter_after m m' :
  adsBaglanmadiLedBildir m = Some m' →
  ∃ c c',
    monitored_counter m = Some c ∧
    monitored_counter m' = Some c' ∧
    c' ≠ 4 ∧
    c' = (if decide (c = 4) then 0 else c).
Proof.
  intros (l & Hl & [[Hc ->]|[Hc ->]])%adsBaglanmadiLedBildir_Some_inv.
  - exists 4, 0. split; [by apply monitored_counter_Some; exists l|].
    split; [|done].
    apply (monitored_counter_with_leds m l (set_counter 0 l) _ Hl).
  - exists (counter l), (counter l).
    assert (monitored_counter m = Some (counter l)) as Hm
      by (by apply monitored_counter_Some; exists l).
    split_and!; try done. by rewrite decide_False.
Qed.

(** X9. A second call right after the first does nothing. *)
Theorem adsBaglanmadiLedBildir_idempotent m m' :
  adsBaglanmadiLedBildir m = Some m' →
  adsBaglanmadiLedBildir m' = Some m'.
Proof.
  intros Ha.
  destruct (adsBaglanmadiLedBildir_counter_after m m' Ha)
    as (c & c' & _ & (l' & Hl' & <-)%monitored_counter_Some & Hne & _).
  by apply (adsBaglanmadiLedBildir_skips m' l').
Qed.

(** X10. [adsBaglanmadiLedBildir] touches [leds[4]] and pin 22 and nothing
    else: the flags, the singleton pointer, [mysistem], [dongu_led], the
    pin directions (it never configures pin 22), the other slots of [leds]
    and the levels of the other pins are as before.  Its only possible
    call is [digitalWrite(22, LOW)], so it never raises pin 22. *)
Theorem adsBaglanmadiLedBildir_frame m m' :
  adsBaglanmadiLedBildir m = Some m' →
  toggleFlag m' = toggleFlag m ∧
  instance m' = instance m ∧
  mysistem m' = mysistem m ∧
  dongu_led m' = dongu_led m ∧
  pin_mode (board m') = pin_mode (board m) ∧
  length (leds m') = length (leds m) ∧
  (∀ k : nat, k ≠ 4%nat → leds m' !! k = leds m !! k) ∧
  (∀ q : Z, q ≠ 22 → pin_level (board m') !! q = pin_level (board m) !! q) ∧
  (io_log (board m') = io_log (board m) ∨
   io_log (board m') = DigitalWriteCall 22 LOW :: io_log (board m)) ∧
  (pin_level (board m') !! 22 = Some HIGH →
   pin_level (board m) !! 22 = Some HIGH).
Proof.
  intros (l & Hl & [[Hc ->]|[Hc ->]])%adsBaglanmadiLedBildir_Some_inv.
  - simpl. split_and!; try done.
    + by rewrite length_insert.
    + intros k Hk. by apply list_lookup_insert_ne.
    + intros q Hq. by apply lookup_insert_ne.
    + by right.
    + by rewrite lookup_insert_eq.
  - split_and!; try done. by left.
Qed.

(** X11. However the counter is stored to between the calls, the health checks
    write pin 22 once for each call that finds the counter at 4, always
    LOW, and write nothing else; the pin directions and the flags are not
    touched. *)
Theorem run_monitor_writes (evs : list monitor_event) m (c : Z) :
  monitored_counter m = Some c →
  ∃ m',
    run_monitor evs m = Some m' ∧
    writes_of (io_log (board m'))
    = replicate (triggers evs c) (22, LOW) ++ writes_of (io_log (board m)) ∧
    pin_mode (board m') = pin_mode (board m) ∧
    toggleFlag m' = toggleFlag m.
Proof.
  revert m c. induction evs as [|[c'|] evs IH]; intros m c Hc; simpl.
  - by exists m.
  - destruct (store_counter_monitored m c' c Hc) as [Hc' Hb].
    destruct (IH _ _ Hc') as (m' & Hrun & Hw & Hmode & Hflags).
    exists m'. split; [exact Hrun|]. by rewrite Hw, Hmode, Hflags, Hb.
  - pose proof Hc as (l & Hl & <-)%monitored_counter_Some.
    case_decide as H4.
    + rewrite (adsBaglanmadiLedBildir_fires m l Hl H4). simpl.
      pose proof (monitored_counter_with_leds m l (set_counter 0 l)
                    (board_digitalWrite 22 LOW (board m)) Hl) as H0.
      destruct (IH _ _ H0) as (m' & Hrun & Hw & Hmode & Hflags).
      exists m'. split; [exact Hrun|]. split; [|by rewrite Hmode, Hflags].
      rewrite Hw.
      change (writes_of (io_log (board (with_leds
                (<[4%nat := set_counter 0 l]> (leds m))
                (with_board (board_digitalWrite 22 LOW (board m)) m)))))
        with ((22, LOW) :: writes_of (io_log (board m))).
      change (replicate (S (triggers evs 0)) (22, LOW))
        with ((22, LOW) :: replicate (triggers evs 0) (22, LOW)).
      change (counter (set_counter 0 l)) with 0.
      rewrite app_comm_cons, replicate_cons_app, <- app_assoc. reflexivity.
    + rewrite (adsBaglanmadiLedBildir_skips m l Hl H4). simpl.
      by apply IH.
Qed.

End MonitorMoreFacts.

(** ** The constructors and the enumeration *)

Section ConstructionFacts.

Context {ads1115 : Type}.
Implicit Types m : machine ads1115.






End ConstructionFacts.

(** ** The further properties at concrete states *)

Lemma begin_frame_witness :
  (13 ∉ pinNos) ∧
  ∃ m',
    begin demo_machine_busy = Some m' ∧
    toggleFlag m' = toggleFlag demo_machine_busy ∧
    instance m' = instance demo_machine_busy ∧
    leds m' = leds demo_machine_busy ∧
    mysistem m' = mysistem demo_machine_busy ∧
    dongu_led m' = dongu_led demo_machine_busy ∧
    io_log (board m') = begin_calls ++ io_log (board demo_machine_busy) ∧
    pin_mode (board m') !! 13 = pin_mode (board demo_machine_busy) !! 13 ∧
    pin_level (board m') !! 13 = pin_level (board demo_machine_busy) !! 13.
Proof.
  assert (13 ∉ pinNos) as Hq by (apply not_in_pinNos; split_and!; lia).
  split; [exact Hq|]. apply (begin_frame demo_machine_busy 13 Hq).
Defined.

Lemma begin_overrides_flag_witness :
  subscript (toggleFlag demo_machine_busy) 2 = Some true ∧ 0 <= 2 <= 4 ∧
  ∃ m' p m'',
    begin demo_machine_busy = Some m' ∧
    subscript pinNos 2 = Some p ∧
    subscript (toggleFlag m') 2 = Some true ∧
    pin_level (board m') !! p = Some LOW ∧
    update 2 m' = Some m'' ∧
    pin_level (board m'') !! p = Some HIGH.
Proof.
  split; [reflexivity|]. split; [lia|].
  apply (begin_overrides_flag demo_machine_busy 2); [reflexivity | lia].
Defined.

Lemma begin_absorbs_update_witness :
  update 2 demo_machine_busy = Some (digitalWrite 6 HIGH demo_machine_busy) ∧
  ∃ m' m1',
    begin demo_machine_busy = Some m' ∧
    begin (digitalWrite 6 HIGH demo_machine_busy) = Some m1' ∧
    pin_mode (board m1') = pin_mode (board m') ∧
    pin_level (board m1') = pin_level (board m') ∧
    toggleFlag m1' = toggleFlag m'.
Proof.
  split; [reflexivity|].
  apply (begin_absorbs_update demo_machine_busy 2). reflexivity.
Defined.

Lemma update_defined_iff_witness :
  length (toggleFlag demo_machine) = 5%nat ∧
  (is_Some (update 7 demo_machine) ↔ 0 <= 7 <= 4).
Proof.
  split; [reflexivity|]. apply (update_defined_iff demo_machine 7). reflexivity.
Defined.

Lemma update_commute_witness :
  ∃ mi mij mj mji ei ej,
    update 2 demo_machine_busy = Some mi ∧ update 4 mi = Some mij ∧
    update 4 demo_machine_busy = Some mj ∧ update 2 mj = Some mji ∧
    toggleFlag mij = toggleFlag mji ∧
    pin_mode (board mij) = pin_mode (board mji) ∧
    pin_level (board mij) = pin_level (board mji) ∧
    io_log (board mij) = ej :: ei :: io_log (board demo_machine_busy) ∧
    io_log (board mji) = ei :: ej :: io_log (board demo_machine_busy).
Proof.
  apply (update_commute demo_machine_busy 2 4); [reflexivity | lia | lia | lia].
Defined.

Lemma status_pin_last_writer_witness :
  subscript (toggleFlag demo_machine_status) 4 = Some true ∧
  monitored_counter demo_machine_status = Some 4 ∧
  (∃ m1 m2,
     adsBaglanmadiLedBildir demo_machine_status = Some m1 ∧
     update 4 m1 = Some m2 ∧
     pin_level (board m2) !! 22 = Some HIGH ∧
     monitored_counter m2 = Some 0) ∧
  (∃ m1 m2,
     update 4 demo_machine_status = Some m1 ∧
     adsBaglanmadiLedBildir m1 = Some m2 ∧
     pin_level (board m2) !! 22 = Some LOW ∧
     subscript (toggleFlag m2) 4 = Some true).
Proof.
  split; [reflexivity|]. split; [reflexivity|].
  apply (status_pin_last_writer demo_machine_status true); reflexivity.
Defined.

Lemma demo_machine_busy_fires :
  adsBaglanmadiLedBildir demo_machine_busy = Some demo_machine_fired.
Proof. reflexivity. Qed.

Lemma adsBaglanmadiLedBildir_counter_after_witness :
  adsBaglanmadiLedBildir demo_machine_busy = Some demo_machine_fired ∧
  ∃ c c',
    monitored_counter demo_machine_busy = Some c ∧
    monitored_counter demo_machine_fired = Some c' ∧
    c' ≠ 4 ∧
    c' = (if decide (c = 4) then 0 else c).
Proof.
  split; [reflexivity|].
  apply (adsBaglanmadiLedBildir_counter_after demo_machine_busy). reflexivity.
Defined.

Lemma adsBaglanmadiLedBildir_idempotent_witness :
  adsBaglanmadiLedBildir demo_machine_busy = Some demo_machine_fired ∧
  adsBaglanmadiLedBildir demo_machine_fired = Some demo_machine_fired.
Proof.
  split; [reflexivity|].
  apply (adsBaglanmadiLedBildir_idempotent demo_machine_busy). reflexivity.
Defined.

Lemma adsBaglanmadiLedBildir_frame_witness :
  adsBaglanmadiLedBildir demo_machine_busy = Some demo_machine_fired ∧
  toggleFlag demo_machine_fired = toggleFlag demo_machine_busy ∧
  instance demo_machine_fired = instance demo_machine_busy ∧
  mysistem demo_machine_fired = mysistem demo_machine_busy ∧
  dongu_led demo_machine_fired = dongu_led demo_machine_busy ∧
  pin_mode (board demo_machine_fired) = pin_mode (board demo_machine_busy) ∧
  length (leds demo_machine_fired) = length (leds demo_machine_busy) ∧
  (∀ k : nat, k ≠ 4%nat →
     leds demo_machine_fired !! k = leds demo_machine_busy !! k) ∧
  (∀ q : Z, q ≠ 22 →
     pin_level (board demo_machine_fired) !! q
     = pin_level (board demo_machine_busy) !! q) ∧
  (io_log (board demo_machine_fired) = io_log (board demo_machine_busy) ∨
   io_log (board demo_machine_fired)
   = DigitalWriteCall 22 LOW :: io_log (board demo_machine_busy)) ∧
  (pin_level (board demo_machine_fired) !! 22 = Some HIGH →
   pin_level (board demo_machine_busy) !! 22 = Some HIGH).
Proof.
  split; [reflexivity|].
  apply (adsBaglanmadiLedBildir_frame demo_machine_busy). reflexivity.
Defined.

Example demo_events_twice_triggers : triggers demo_events_twice 4 = 2%nat.
Proof. reflexivity. Qed.

Lemma run_monitor_writes_witness :
  monitored_counter demo_machine_busy = Some 4 ∧
  ∃ m',
    run_monitor demo_events_twice demo_machine_busy = Some m' ∧
    writes_of (io_log (board m'))
    = replicate (triggers demo_events_twice 4) (22, LOW)
      ++ writes_of (io_log (board demo_machine_busy)) ∧
    pin_mode (board m') = pin_mode (board demo_machine_busy) ∧
    toggleFlag m' = toggleFlag demo_machine_busy.
Proof.
  split; [reflexivity|].
  apply (run_monitor_writes demo_events_twice demo_machine_busy 4). reflexivity.
Defined.

